(** * Chat dashboard: the message view and the chat list

    A shallow embedding of [src/components/chat/message-view.tsx] and of the
    directory query of [src/components/chat/chat-list.tsx].

    The component state ([useState]), the mutation state ([useMutation]) and
    the query cache ([useQueryClient]) are threaded explicitly through a
    record [World]; every handler of the component is a function
    [World -> World].  Strings that the code trims are sequences of UTF-16
    code units, as JavaScript strings are. *)

From Stdlib Require Import ZArith NArith QArith Lia List Permutation.
From stdpp Require Import gmap strings list fin_maps.

(** ** JavaScript strings and [String.prototype.trim] *)

(** A JavaScript string is a sequence of UTF-16 code units. *)
Definition jsstring := list N.

(** The code points removed by [trim]: ECMAScript WhiteSpace and
    LineTerminator.  All of them lie in the basic plane, so each is one
    code unit. *)
Definition isWhiteSpace (c : N) : bool :=
  ((9 <=? c) && (c <=? 13)        (* TAB, LF, VT, FF, CR *)
   || (c =? 32)                   (* SPACE *)
   || (c =? 160)                  (* NO-BREAK SPACE *)
   || (c =? 5760)                 (* OGHAM SPACE MARK *)
   || (8192 <=? c) && (c <=? 8202)  (* EN QUAD .. HAIR SPACE *)
   || (c =? 8232) || (c =? 8233)  (* LINE / PARAGRAPH SEPARATOR *)
   || (c =? 8239)                 (* NARROW NO-BREAK SPACE *)
   || (c =? 8287)                 (* MEDIUM MATHEMATICAL SPACE *)
   || (c =? 12288)                (* IDEOGRAPHIC SPACE *)
   || (c =? 65279))%N.            (* ZERO WIDTH NO-BREAK SPACE *)

Fixpoint trimStart (s : jsstring) : jsstring :=
  match s with
  | [] => []
  | c :: r => if isWhiteSpace c then trimStart r else s
  end.

Definition trimEnd (s : jsstring) : jsstring := rev (trimStart (rev s)).

Definition trim (s : jsstring) : jsstring := trimEnd (trimStart s).

(** Truthiness of a string: the empty string is the only falsy one. *)
Definition truthy (s : jsstring) : bool :=
  match s with [] => false | _ :: _ => true end.

(** Code units of an ASCII literal. *)
Fixpoint lit (s : string) : jsstring :=
  match s with
  | EmptyString => []
  | String a r => Ascii.N_of_ascii a :: lit r
  end.

(** ** Data model ([@/lib/chat-api]: the fields the components read) *)

Module Profile.
Record t := mk {
  _id : string;
  name : option jsstring;
  avatar : option string
}.
#[global] Instance eq_dec : EqDecision t.
Proof. solve_decision. Defined.
End Profile.

Module Message.
Record t := mk {
  _id : string;
  chatId : string;
  content : jsstring;
  sender : Profile.t;
  createdAt : string;
  isMe : bool
}.
#[global] Instance eq_dec : EqDecision t.
Proof. solve_decision. Defined.
End Message.

Module Chat.
Record t := mk {
  _id : string;
  title : jsstring;
  isGroupChat : bool;
  participants : list Profile.t;
  imageUrl : option string;
  lastMessage : option Message.t
}.
#[global] Instance eq_dec : EqDecision t.
Proof. solve_decision. Defined.
End Chat.

(** [createdAt] is an ISO-8601 UTC string; on strings of that one format the
    chronological order is the lexicographic one. *)
Definition earlier (a b : Message.t) : bool :=
  String.ltb (Message.createdAt a) (Message.createdAt b).

(** The directory payload of [chatApi.getChatList]. *)
Record Directory := mkDirectory {
  activeChats : list Chat.t;
  nonActiveChats : list Chat.t
}.

(** A response object [{ ..., data: { ..., data: payload } }].  The
    properties other than [data] are kept opaque; the object spreads of the
    push handler copy them. *)
Record Response (A : Type) := mkResponse {
  outerRest : gmap string string;
  innerRest : gmap string string;
  payload : A
}.
Arguments mkResponse {A} _ _ _.
Arguments outerRest {A} _.
Arguments innerRest {A} _.
Arguments payload {A} _.

(** [select: (data) => data.data.data] *)
Definition select {A} (r : Response A) : A := payload r.

(** ** The query cache *)

(** The state of one query: its cached data, whether it was invalidated
    since, and whether a fetch for it is in flight. *)
Record Query (A : Type) := mkQuery {
  qdata : option A;
  isInvalidated : bool;
  isFetching : bool
}.
Arguments mkQuery {A} _ _ _.
Arguments qdata {A} _.
Arguments isInvalidated {A} _.
Arguments isFetching {A} _.

Abbreviation Thread := (Response (list Message.t)).

(** The variables of one call of [chatApi.sendMessage]. *)
Record SendVars := mkSendVars {
  sv_chatId : string;
  sv_content : jsstring
}.

(** Everything the message view reads or writes. *)
Record World := mkWorld {
  chat : Chat.t;                           (* the [chat] prop *)
  sessionUserId : option string;           (* [session?.user?.id] *)
  message : jsstring;                      (* [useState("")] *)
  isPending : bool;                        (* [sendMessageMutation.isPending] *)
  messagesCache : gmap string (Query Thread);        (* ["messages", id] *)
  chatsCache : option (Query (Response Directory));  (* ["chats"] *)
  outbox : list SendVars;                  (* requests issued by the mutation *)
  toasts : list string                     (* [toast.error] calls *)
}.

Definition setMessage (s : jsstring) (w : World) : World :=
  mkWorld (chat w) (sessionUserId w) s (isPending w) (messagesCache w)
          (chatsCache w) (outbox w) (toasts w).

Definition setPending (b : bool) (w : World) : World :=
  mkWorld (chat w) (sessionUserId w) (message w) b (messagesCache w)
          (chatsCache w) (outbox w) (toasts w).

Definition setMessagesCache (c : gmap string (Query Thread)) (w : World) : World :=
  mkWorld (chat w) (sessionUserId w) (message w) (isPending w) c
          (chatsCache w) (outbox w) (toasts w).

Definition setChatsCache (c : option (Query (Response Directory))) (w : World) : World :=
  mkWorld (chat w) (sessionUserId w) (message w) (isPending w) (messagesCache w)
          c (outbox w) (toasts w).

Definition setChat (c : Chat.t) (w : World) : World :=
  mkWorld c (sessionUserId w) (message w) (isPending w) (messagesCache w)
          (chatsCache w) (outbox w) (toasts w).

Definition pushOutbox (v : SendVars) (w : World) : World :=
  mkWorld (chat w) (sessionUserId w) (message w) (isPending w) (messagesCache w)
          (chatsCache w) (outbox w ++ [v]) (toasts w).

Definition toast_error (t : string) (w : World) : World :=
  mkWorld (chat w) (sessionUserId w) (message w) (isPending w) (messagesCache w)
          (chatsCache w) (outbox w) (toasts w ++ [t]).

(** [queryClient.setQueryData(["messages", id], updater)]: the updater gets
    the cached data ([undefined] when there is none) and its result is
    stored; a manual write clears the invalidation mark and leaves a fetch
    in flight alone. *)
Definition setQueryData_messages (id : string)
    (updater : option Thread -> Thread) (w : World) : World :=
  let old := messagesCache w !! id in
  let q' := mkQuery (Some (updater (old ≫= qdata))) false
                    (from_option isFetching false old) in
  setMessagesCache (<[id := q']> (messagesCache w)) w.

(** [queryClient.invalidateQueries({ queryKey: ["messages", id] })]: marks
    the query, if there is one, and starts its refetch at once; the view
    observes the query of its chat with [enabled: !!chat._id], and a
    disabled query is marked but not refetched. *)
Definition invalidate_messages (id : string) (w : World) : World :=
  setMessagesCache
    (alter (fun q => mkQuery (qdata q) true
                       (isFetching q || negb (bool_decide (id = ""))))
           id (messagesCache w)) w.

(** [queryClient.invalidateQueries({ queryKey: ["chats"] })]: marks the
    directory query, which the chat list observes, and starts its refetch at
    once. *)
Definition invalidate_chats (w : World) : World :=
  setChatsCache ((fun q => mkQuery (qdata q) true true) <$> chatsCache w) w.

(** A fetch of [chatApi.getMessages(id)] completes: the response becomes the
    data of the query under the key of that request. *)
Definition fetchResolved (id : string) (r : Thread) (w : World) : World :=
  setMessagesCache (<[id := mkQuery (Some r) false false]> (messagesCache w)) w.

(** A fetch of [chatApi.getChatList()] completes (mount, refetch after an
    invalidation, or the 30 s [refetchInterval]). *)
Definition chatsResolved (r : Response Directory) (w : World) : World :=
  setChatsCache (Some (mkQuery (Some r) false false)) w.


(** ** [MessageView] *)

(** The data cached under [["messages", id]], if any. *)
Definition cachedThread (id : string) (w : World) : option Thread :=
  messagesCache w !! id ≫= qdata.

(** The stored newest-first sequence of a chat; empty when nothing is
    cached. *)
Definition storedMessages (id : string) (w : World) : list Message.t :=
  from_option payload [] (cachedThread id w).

(** [enabled: !!chat._id] *)
Definition enabled (c : Chat.t) : bool := negb (bool_decide (Chat._id c = "")).

(** The parent passes a [chat].  When its id is the one already shown the
    query key is the same and no fetch starts.  Otherwise the query observer
    moves to the key of that chat and, when enabled, starts a fetch for it
    (the data of a query is stale at once with the default [staleTime]). *)
Definition selectChat (c : Chat.t) (w : World) : World :=
  let w1 := setChat c w in
  if enabled c && negb (bool_decide (Chat._id c = Chat._id (chat w))) then
    setMessagesCache
      (partial_alter
         (fun o => Some (mkQuery (o ≫= qdata) (from_option isInvalidated false o) true))
         (Chat._id c) (messagesCache w1)) w1
  else w1.

(** [const { data: messages, isLoading } = useQuery(...)] *)
Definition messages (w : World) : option (list Message.t) :=
  select <$> cachedThread (Chat._id (chat w)) w.

Definition isLoading (w : World) : bool :=
  match messagesCache w !! Chat._id (chat w) with
  | Some q => isFetching q && bool_decide (qdata q = None)
  | None => false
  end.

(** The updater that [handleNewMessage] passes to [setQueryData]. *)
Definition prependMessage (newMessage : Message.t) (oldData : option Thread) : Thread :=
  match oldData with
  | None => mkResponse ∅ ∅ [newMessage]
  | Some o => mkResponse (outerRest o) (innerRest o) (newMessage :: payload o)
  end.

Definition handleNewMessage (newMessage : Message.t) (w : World) : World :=
  if bool_decide (Message.chatId newMessage = Chat._id (chat w)) then
    invalidate_chats
      (setQueryData_messages (Chat._id (chat w)) (prependMessage newMessage) w)
  else w.

(** The effect subscribes [handleNewMessage] to ["newMessage"] only when the
    session has a user id. *)
Definition onNewMessageEvent (m : Message.t) (w : World) : World :=
  match sessionUserId w with
  | Some u => if bool_decide (u = "") then w else handleNewMessage m w
  | None => w
  end.

(** [sendMessageMutation.mutate(vars)]: the request leaves and the mutation
    is pending until it settles. *)
Definition mutate (v : SendVars) (w : World) : World :=
  setPending true (pushOutbox v w).

Definition onSuccess (w : World) : World :=
  invalidate_chats (invalidate_messages (Chat._id (chat w)) (setMessage [] w)).

Definition onError (w : World) : World :=
  toast_error "Errore nell'invio del messaggio" w.

(** The request of the mutation settles. *)
Definition sendResolved (ok : bool) (w : World) : World :=
  setPending false (if ok then onSuccess w else onError w).

Definition handleSendMessage (w : World) : World :=
  if negb (truthy (trim (message w))) then w
  else mutate (mkSendVars (Chat._id (chat w)) (trim (message w))) w.

(** [disabled] of the [Input] and of the submit [Button]. *)
Definition inputDisabled (w : World) : bool := isPending w.

Definition submitDisabled (w : World) : bool :=
  negb (truthy (trim (message w))) || isPending w.

(** The browser side of the form: a disabled submit button submits nothing,
    a disabled input takes no edit. *)
Definition submitForm (w : World) : World :=
  if submitDisabled w then w else handleSendMessage w.

Definition onChange (value : jsstring) (w : World) : World :=
  if inputDisabled w then w else setMessage value w.

(** What the message pane shows. *)
Inductive ThreadView :=
| Skeleton
| Rows (rows : list Message.t)
| EmptyPlaceholder.

(** [isLoading ? ... : messages && messages.length > 0 ?
     messages.slice().reverse().map(...) : ...] *)
Definition renderThread (w : World) : ThreadView :=
  if isLoading w then Skeleton
  else match messages w with
       | Some (m :: ms) => Rows (rev (m :: ms))
       | _ => EmptyPlaceholder
       end.

(** ** Arrays as objects: [slice] copies, [reverse] works in place *)

Module JSArray.

(** The arrays alive, by reference; a reference is an index of the heap. *)
Abbreviation heap := (list (list Message.t)).
Abbreviation ref := nat.

(** [a.slice()]: a new array with the elements of [a]. *)
Definition slice (a : ref) (h : heap) : option (heap * ref) :=
  ms ← h !! a; Some (h ++ [ms], length h).

(** [a.reverse()]: reverses [a] itself and returns [a]. *)
Definition reverse (a : ref) (h : heap) : option (heap * ref) :=
  ms ← h !! a; Some (<[a := rev ms]> h, a).

(** [messages.slice().reverse()] *)
Definition slice_reverse (a : ref) (h : heap) : option (heap * ref) :=
  '(h1, c) ← slice a h; reverse c h1.

End JSArray.

(** ** [ChatList]: the directory *)

Definition chatsData (w : World) : option Directory :=
  select <$> (chatsCache w ≫= qdata).

(** [[...(chatsData?.activeChats || []), ...(chatsData?.nonActiveChats || [])]] *)
Definition allChats (w : World) : list Chat.t :=
  from_option activeChats [] (chatsData w)
  ++ from_option nonActiveChats [] (chatsData w).

(** The preview the list shows for a chat: its [lastMessage]. *)
Definition preview (id : string) (w : World) : option Message.t :=
  find (fun c => bool_decide (Chat._id c = id)) (allChats w) ≫= Chat.lastMessage.

(** ** Events *)

Inductive Event :=
| SelectChat (c : Chat.t)
| FetchResolved (id : string) (r : Thread)
| ChatsResolved (r : Response Directory)
| NewMessage (m : Message.t)
| Change (value : jsstring)
| Submit
| SendResolved (ok : bool).

Definition step (w : World) (e : Event) : World :=
  match e with
  | SelectChat c => selectChat c w
  | FetchResolved id r => fetchResolved id r w
  | ChatsResolved r => chatsResolved r w
  | NewMessage m => onNewMessageEvent m w
  | Change v => onChange v w
  | Submit => submitForm w
  | SendResolved ok => sendResolved ok w
  end.

Definition run (es : list Event) (w : World) : World := fold_left step es w.

(** How many stored messages of a thread carry a given id. *)
Definition copies (id : string) (l : list Message.t) : nat :=
  length (filter (fun m => Message._id m = id) l).

(** ** [MessageView]: the socket subscription (the effect of lines 49-75) *)

(** The session has a user id. *)
Definition signedIn (user : option string) : bool :=
  match user with
  | Some u => negb (bool_decide (u = ""))
  | None => false
  end.

Module Subscription.

(** What the component has to do with the socket: the listeners it has
    registered for ["newMessage"], each one a closure that captured the
    [chat._id] of the render that created it (the number tells the closures
    apart, as function identity does); the dependencies of the last effect
    run; the cleanup that run returned, if it returned one. *)
Record t := mk {
  listeners : list (nat * string);
  runs : nat;
  deps : option (string * option string);
  cleanup : option nat
}.

Definition init : t := mk [] 0 None None.

(** [socket.off("newMessage", handleNewMessage)]: removes that function. *)
Fixpoint off (k : nat) (l : list (nat * string)) : list (nat * string) :=
  match l with
  | [] => []
  | (k', c) :: r => if (k' =? k)%nat then r else (k', c) :: off k r
  end.

Definition runCleanup (s : t) : t :=
  match cleanup s with
  | Some k => mk (off k (listeners s)) (runs s) (deps s) None
  | None => s
  end.

(** The body of the effect.  [connected] tells whether
    [socketManager.connect] gave a socket ([socket?.on] does nothing
    otherwise, and so does the [socket?.off] of the cleanup). *)
Definition runEffect (chatId : string) (user : option string)
    (connected : bool) (s : t) : t :=
  match user with
  | Some u =>
      if bool_decide (u = "") then mk (listeners s) (S (runs s)) (Some (chatId, user)) None
      else if connected then
        mk (listeners s ++ [(runs s, chatId)]) (S (runs s)) (Some (chatId, user))
           (Some (runs s))
      else mk (listeners s) (S (runs s)) (Some (chatId, user)) None
  | None => mk (listeners s) (S (runs s)) (Some (chatId, user)) None
  end.

Inductive Event :=
| Render (chatId : string) (user : option string) (connected : bool)
| Unmount.

(** A render runs the effect on mount and when [chat._id] or
    [session?.user?.id] differ from the last run, after the cleanup of that
    run; unmounting runs the cleanup. *)
Definition step (s : t) (e : Event) : t :=
  match e with
  | Render chatId user connected =>
      if bool_decide (deps s = Some (chatId, user)) then s
      else runEffect chatId user connected (runCleanup s)
  | Unmount =>
      let s' := runCleanup s in mk (listeners s') (runs s') None None
  end.

Definition run (es : list Event) (s : t) : t := fold_left step es s.

(** Every effect run of the events got a socket from [connect]. *)
Definition allConnected (es : list Event) : bool :=
  forallb (fun e => match e with Render _ _ c => c | Unmount => true end) es.

(** The component holds no listener, or the one listener that its pending
    cleanup will remove, made for the chat of the last effect run. *)
Definition tidy (s : t) : Prop :=
  match cleanup s with
  | None => listeners s = []
  | Some k =>
      exists cid u,
        deps s = Some (cid, Some u) /\ u <> "" /\ listeners s = [(k, cid)]
  end.

(** The component listens exactly when the last effect run had a signed-in
    user, and then for the chat of that run. *)
Definition subscribed (s : t) : Prop :=
  match deps s with
  | Some (cid, user) =>
      if signedIn user
      then exists k, listeners s = [(k, cid)] /\ cleanup s = Some k
      else listeners s = [] /\ cleanup s = None
  | None => listeners s = [] /\ cleanup s = None
  end.

(** The listener created in a render with that [chat._id]. *)
Definition handler (chatId : string) (newMessage : Message.t) (w : World) : World :=
  if bool_decide (Message.chatId newMessage = chatId) then
    invalidate_chats (setQueryData_messages chatId (prependMessage newMessage) w)
  else w.

(** The socket emits ["newMessage"]: every registered listener is called. *)
Definition emit (newMessage : Message.t) (s : t) (w : World) : World :=
  fold_left (fun w' l => handler l.2 newMessage w') (listeners s) w.

End Subscription.

(** ** Participants and avatars (both components) *)

(** [participants.find((p) => p._id !== session?.user?.id)] *)
Definition otherParticipant (user : option string) (ps : list Profile.t)
    : option Profile.t :=
  find (fun p => negb (bool_decide (Some (Profile._id p) = user))) ps.




(** ** [ChatList]: search, dropdown and rows *)

(** [s.includes(q)] on code units. *)
Fixpoint startsWith (q s : jsstring) : bool :=
  match q, s with
  | [], _ => true
  | _ :: _, [] => false
  | a :: q', b :: s' => (a =? b)%N && startsWith q' s'
  end.

Fixpoint includes (s q : jsstring) : bool :=
  match s with
  | [] => startsWith q []
  | _ :: s' => startsWith q s || includes s' q
  end.

(** [x || ""] on a string. *)
Definition orEmpty (x : jsstring) : jsstring := if truthy x then x else [].

Module ChatList.

(** The fields of [UserProfile] that the component reads. *)
Record UserProfile := mkUserProfile {
  _id : string;
  username : jsstring;
  email : jsstring;
  name : option jsstring;
  avatar : option string
}.

Record State := mk {
  searchQuery : jsstring;              (* [useState("")] *)
  showProfiles : bool;                 (* [useState(false)] *)
  createRequests : list string;        (* [chatApi.createChat] calls *)
  newChats : list Chat.t;              (* calls of the [onNewChat] prop *)
  refetches : nat;                     (* calls of [refetchChats] *)
  consoleErrors : nat                  (* [console.error] calls *)
}.

Definition handleSearchChange (value : jsstring) (s : State) : State :=
  let s1 := mk value (showProfiles s) (createRequests s) (newChats s)
               (refetches s) (consoleErrors s) in
  if truthy (trim value) && negb (showProfiles s) then
    mk value true (createRequests s) (newChats s) (refetches s) (consoleErrors s)
  else if negb (truthy (trim value)) then
    mk value false (createRequests s) (newChats s) (refetches s) (consoleErrors s)
  else s1.

Definition handleSearchFocus (s : State) : State :=
  if truthy (trim (searchQuery s)) then
    mk (searchQuery s) true (createRequests s) (newChats s) (refetches s)
       (consoleErrors s)
  else s.

Definition handleNewChatClick (s : State) : State :=
  mk [] true (createRequests s) (newChats s) (refetches s) (consoleErrors s).

(** [mounted]: [searchContainerRef.current] is set; [inside]: the container
    contains the target of the event. *)
Definition handleClickOutside (mounted inside : bool) (s : State) : State :=
  if mounted && negb inside then
    mk (searchQuery s) false (createRequests s) (newChats s) (refetches s)
       (consoleErrors s)
  else s.

(** [handleProfileSelect] up to its [await]: the request leaves. *)
Definition handleProfileSelect (userId : string) (s : State) : State :=
  mk (searchQuery s) (showProfiles s) (createRequests s ++ [userId])
     (newChats s) (refetches s) (consoleErrors s).

(** [handleProfileSelect] after its [await]: [Some newChat] is the chat of
    the response, [None] a rejected request, which the [catch] logs. *)
Definition createChatSettled (r : option Chat.t) (s : State) : State :=
  match r with
  | Some newChat =>
      mk [] false (createRequests s) (newChats s ++ [newChat])
         (S (refetches s)) (consoleErrors s)
  | None =>
      mk (searchQuery s) (showProfiles s) (createRequests s) (newChats s)
         (refetches s) (S (consoleErrors s))
  end.

Inductive Event :=
| SearchChange (value : jsstring)
| SearchFocus
| NewChatClick
| ClickOutside (mounted inside : bool)
| ProfileSelect (userId : string)
| CreateChatSettled (r : option Chat.t).

Definition step (s : State) (e : Event) : State :=
  match e with
  | SearchChange v => handleSearchChange v s
  | SearchFocus => handleSearchFocus s
  | NewChatClick => handleNewChatClick s
  | ClickOutside m i => handleClickOutside m i s
  | ProfileSelect u => handleProfileSelect u s
  | CreateChatSettled r => createChatSettled r s
  end.

Section Search.
(** [String.prototype.toLowerCase], kept abstract. *)
Variable toLowerCase : jsstring -> jsstring.

(** [allChats.filter((chat) =>
      chat.title.toLowerCase().includes(searchQuery.toLowerCase()))] *)
Definition filteredChats (query : jsstring) (chats : list Chat.t) : list Chat.t :=
  List.filter
    (fun c => includes (toLowerCase (Chat.title c)) (toLowerCase query)) chats.

(** The callback of [profilesData?.filter]. *)
Definition profileMatches (query : jsstring) (p : UserProfile) : bool :=
  if negb (truthy (trim query)) then true
  else
    let searchLower := trim (toLowerCase query) in
    let username' := orEmpty (toLowerCase (username p)) in
    let name' := orEmpty (from_option toLowerCase [] (name p)) in
    let email' := orEmpty (toLowerCase (email p)) in
    includes username' searchLower || includes name' searchLower
    || includes email' searchLower.

(** [profilesData?.filter(...) || []] *)
Definition filteredProfiles (query : jsstring)
    (profilesData : option (list UserProfile)) : list UserProfile :=
  match profilesData with
  | Some ps => List.filter (profileMatches query) ps
  | None => []
  end.

(** What the list pane shows. *)
Inductive ListView :=
| ListSkeleton
| NoConversations
| NoMatch (query : jsstring)
| ChatRows (rows : list Chat.t).

Definition renderList (isChatsLoading : bool) (query : jsstring)
    (chats : list Chat.t) : ListView :=
  if isChatsLoading then ListSkeleton
  else if (length (filteredChats query chats) =? 0)%nat && negb (truthy query)
  then NoConversations
  else if (length (filteredChats query chats) =? 0)%nat && truthy query
  then NoMatch query
  else ChatRows (filteredChats query chats).

End Search.

(** Which of its three formats [formatTime] uses. *)
Inductive TimeFormat := HourMinute | Weekday | DayMonth.

(** [(now.getTime() - date.getTime()) / (1000 * 60 * 60)] on time values in
    milliseconds. *)
Definition diffInHours (now date : Z) : Q :=
  (inject_Z (now - date) / inject_Z (1000 * 60 * 60))%Q.

Definition Qltb (a b : Q) : bool := negb (Qle_bool b a).

(** [date] is [None] for an invalid date: its time value is [NaN], both
    comparisons fail and the last branch is taken. *)
Definition formatTime (now : Z) (date : option Z) : TimeFormat :=
  match date with
  | Some d =>
      if Qltb (diffInHours now d) 24 then HourMinute
      else if Qltb (diffInHours now d) 168 then Weekday
      else DayMonth
  | None => DayMonth
  end.

End ChatList.

(** Lower case of the letters A-Z, as [toLowerCase] acts on ASCII text. *)
Definition asciiLower (s : jsstring) : jsstring :=
  map (fun c => if (65 <=? c)%N && (c <=? 90)%N then (c + 32)%N else c) s.

Definition isResolve (e : Event) : bool :=
  match e with SendResolved _ => true | _ => false end.

(** The completion of a directory fetch. *)
Definition isDirectoryFetch (e : Event) : bool :=
  match e with ChatsResolved _ => true | _ => false end.

(** Events of the compose form and of its mutation. *)
Definition isCompose (e : Event) : bool :=
  match e with
  | Change _ | Submit | SendResolved _ => true
  | _ => false
  end.

(** A sent content is well formed when it is not empty and trimming leaves it
    as it is. *)
Definition wellFormedContent (v : SendVars) : Prop :=
  sv_content v <> [] /\ trim (sv_content v) = sv_content v.

(** ** Sample data *)

Definition alice : Profile.t := Profile.mk "u1" (Some (lit "Alice")) None.
Definition bruno : Profile.t := Profile.mk "u2" (Some (lit "Bruno")) None.

Definition m1 : Message.t :=
  Message.mk "m1" "A" (lit "ciao") alice "2024-05-01T10:00:00.000Z" false.
Definition m2 : Message.t :=
  Message.mk "m2" "A" (lit "come stai?") alice "2024-05-01T10:05:00.000Z" false.
Definition mB_old : Message.t :=
  Message.mk "b1" "B" (lit "a dopo") bruno "2024-05-01T09:00:00.000Z" false.
Definition mB_new : Message.t :=
  Message.mk "b2" "B" (lit "ci sei?") bruno "2024-05-01T10:30:00.000Z" false.

Definition chatA : Chat.t := Chat.mk "A" (lit "Alice") false [alice] None (Some m1).
Definition chatB : Chat.t := Chat.mk "B" (lit "Bruno") false [bruno] None (Some mB_old).

Definition directory0 : Response Directory :=
  mkResponse ∅ ∅ (mkDirectory [chatA; chatB] []).

(** Chat A is open, nothing is cached for its thread, the directory is
    loaded. *)
Definition wA : World :=
  mkWorld chatA (Some "me") [] false ∅
          (Some (mkQuery (Some directory0) false false)) [] [].

(** Chat A is open and its thread was fetched with [m1] in it. *)
Definition wA_loaded : World := fetchResolved "A" (mkResponse ∅ ∅ [m1]) wA.

(** Drafts: blanks only (space, tab, no-break space, line feed), and a text
    with blanks around it. *)
Definition blankDraft : jsstring := [32; 9; 160; 10]%N.
Definition paddedDraft : jsstring := lit "  ciao a tutti ".

(** Chat A is open and a send is under way. *)
Definition wA_sending : World :=
  submitForm (onChange paddedDraft wA).

(** One array alive: the cached thread of chat A, newest first. *)
Definition heap0 : JSArray.heap := [[m2; m1]].

(** ** Basic facts about the cache operations *)

Section CacheFacts.
Variable w : World.
Variable id : string.

Lemma cachedThread_setQueryData (f : option Thread -> Thread) :
  cachedThread id (setQueryData_messages id f w) = Some (f (cachedThread id w)).
Proof.
  unfold cachedThread, setQueryData_messages. simpl.
  by rewrite lookup_insert_eq.
Qed.

Lemma cachedThread_setQueryData_ne (id' : string) (f : option Thread -> Thread) :
  id' ≠ id ->
  cachedThread id (setQueryData_messages id' f w) = cachedThread id w.
Proof.
  intros Hne. unfold cachedThread, setQueryData_messages. simpl.
  by rewrite lookup_insert_ne.
Qed.

Lemma cachedThread_invalidate_chats :
  cachedThread id (invalidate_chats w) = cachedThread id w.
Proof. reflexivity. Qed.

Lemma cachedThread_invalidate_messages (id' : string) :
  cachedThread id (invalidate_messages id' w) = cachedThread id w.
Proof.
  unfold cachedThread, invalidate_messages. simpl.
  rewrite lookup_alter. case_decide as Heq; [rewrite Heq | done].
  by destruct (messagesCache w !! id).
Qed.

Lemma cachedThread_fetchResolved (r : Thread) :
  cachedThread id (fetchResolved id r w) = Some r.
Proof.
  unfold cachedThread, fetchResolved. simpl. by rewrite lookup_insert_eq.
Qed.

Lemma cachedThread_fetchResolved_ne (id' : string) (r : Thread) :
  id' ≠ id -> cachedThread id (fetchResolved id' r w) = cachedThread id w.
Proof.
  intros Hne. unfold cachedThread, fetchResolved. simpl.
  by rewrite lookup_insert_ne.
Qed.

Lemma cachedThread_selectChat (c : Chat.t) :
  cachedThread id (selectChat c w) = cachedThread id w.
Proof.
  unfold cachedThread, selectChat.
  destruct (enabled c && negb (bool_decide (Chat._id c = Chat._id (chat w)))); simpl; [| done].
  rewrite lookup_partial_alter. case_decide as Heq; [rewrite Heq | done].
  by destruct (messagesCache w !! id).
Qed.

End CacheFacts.

Section PushFacts.
Variable w : World.
Variable m : Message.t.

Lemma chat_handleNewMessage : chat (handleNewMessage m w) = chat w.
Proof. unfold handleNewMessage. by case_bool_decide. Qed.

Lemma handleNewMessage_other :
  Message.chatId m ≠ Chat._id (chat w) -> handleNewMessage m w = w.
Proof. intros Hne. unfold handleNewMessage. by rewrite bool_decide_eq_false_2. Qed.

Lemma cachedThread_handleNewMessage :
  Message.chatId m = Chat._id (chat w) ->
  cachedThread (Chat._id (chat w)) (handleNewMessage m w)
  = Some (prependMessage m (cachedThread (Chat._id (chat w)) w)).
Proof.
  intros He. unfold handleNewMessage. rewrite bool_decide_eq_true_2 by done.
  by rewrite cachedThread_invalidate_chats, cachedThread_setQueryData.
Qed.

Lemma storedMessages_handleNewMessage :
  Message.chatId m = Chat._id (chat w) ->
  storedMessages (Chat._id (chat w)) (handleNewMessage m w)
  = m :: storedMessages (Chat._id (chat w)) w.
Proof.
  intros He. unfold storedMessages.
  rewrite cachedThread_handleNewMessage by done.
  by destruct (cachedThread (Chat._id (chat w)) w).
Qed.

Lemma chatsData_handleNewMessage :
  chatsData (handleNewMessage m w) = chatsData w.
Proof.
  unfold handleNewMessage. case_bool_decide; [| done].
  unfold chatsData, invalidate_chats. simpl. by destruct (chatsCache w).
Qed.

End PushFacts.

Lemma storedMessages_iter_push (n : nat) (w : World) (m : Message.t) :
  Message.chatId m = Chat._id (chat w) ->
  chat (Nat.iter n (handleNewMessage m) w) = chat w
  /\ storedMessages (Chat._id (chat w)) (Nat.iter n (handleNewMessage m) w)
     = repeat m n ++ storedMessages (Chat._id (chat w)) w.
Proof.
  intros He. induction n as [| n [IHc IHs]]; [done |].
  simpl. rewrite chat_handleNewMessage. split; [done |].
  rewrite <- IHc, storedMessages_handleNewMessage by (by rewrite IHc).
  by rewrite IHc, IHs.
Qed.

Lemma copies_app (id : string) (l k : list Message.t) :
  copies id (l ++ k) = copies id l + copies id k.
Proof. unfold copies. by rewrite filter_app, length_app. Qed.

Lemma copies_repeat (m : Message.t) (n : nat) :
  copies (Message._id m) (repeat m n) = n.
Proof.
  unfold copies. induction n as [| n IH]; [done |].
  simpl. rewrite filter_cons_True by done. simpl. by rewrite IH.
Qed.

Lemma lookup_handleNewMessage (w : World) (m : Message.t) :
  Message.chatId m = Chat._id (chat w) ->
  messagesCache (handleNewMessage m w) !! Chat._id (chat w)
  = Some (mkQuery (Some (prependMessage m (cachedThread (Chat._id (chat w)) w)))
                  false
                  (from_option isFetching false (messagesCache w !! Chat._id (chat w)))).
Proof.
  intros He. unfold handleNewMessage. rewrite bool_decide_eq_true_2 by done.
  simpl. by rewrite lookup_insert_eq.
Qed.

Lemma renderThread_handleNewMessage (w : World) (m : Message.t) :
  Message.chatId m = Chat._id (chat w) ->
  renderThread (handleNewMessage m w)
  = Rows (rev (storedMessages (Chat._id (chat w)) w) ++ [m]).
Proof.
  intros He. unfold renderThread, isLoading, messages.
  rewrite chat_handleNewMessage, lookup_handleNewMessage by done.
  rewrite cachedThread_handleNewMessage by done. simpl.
  rewrite andb_false_r. unfold storedMessages.
  by destruct (cachedThread (Chat._id (chat w)) w).
Qed.

Lemma storedMessages_push2 (w : World) (a b : Message.t) :
  Message.chatId a = Chat._id (chat w) ->
  Message.chatId b = Chat._id (chat w) ->
  storedMessages (Chat._id (chat w)) (handleNewMessage b (handleNewMessage a w))
  = b :: a :: storedMessages (Chat._id (chat w)) w.
Proof.
  intros Ha Hb. pose proof (chat_handleNewMessage w a) as Ca.
  assert (Hb' : Message.chatId b = Chat._id (chat (handleNewMessage a w)))
    by (by rewrite Ca).
  pose proof (storedMessages_handleNewMessage (handleNewMessage a w) b Hb') as H.
  rewrite Ca in H. rewrite H. by rewrite storedMessages_handleNewMessage.
Qed.

Lemma renderThread_push2 (w : World) (a b : Message.t) :
  Message.chatId a = Chat._id (chat w) ->
  Message.chatId b = Chat._id (chat w) ->
  renderThread (handleNewMessage b (handleNewMessage a w))
  = Rows (rev (storedMessages (Chat._id (chat w)) w) ++ [a; b]).
Proof.
  intros Ha Hb. pose proof (chat_handleNewMessage w a) as Ca.
  assert (Hb' : Message.chatId b = Chat._id (chat (handleNewMessage a w)))
    by (by rewrite Ca).
  rewrite (renderThread_handleNewMessage (handleNewMessage a w) b Hb').
  rewrite Ca, storedMessages_handleNewMessage by done.
  simpl. by rewrite <- app_assoc.
Qed.

(** *** Trimming *)

Lemma trimStart_nil_iff (s : jsstring) :
  trimStart s = [] <-> forallb isWhiteSpace s = true.
Proof.
  induction s as [| c r IH]; simpl; [done |].
  destruct (isWhiteSpace c); simpl; [exact IH |].
  split; discriminate.
Qed.

Lemma trimStart_head (s r : jsstring) (c : N) :
  trimStart s = c :: r -> isWhiteSpace c = false.
Proof.
  induction s as [| d t IH]; simpl; [discriminate |].
  destruct (isWhiteSpace d) eqn:Hd; [exact IH |].
  intros [= -> _]. exact Hd.
Qed.

Lemma forallb_rev_true (f : N -> bool) (s : jsstring) :
  forallb f (rev s) = true -> forallb f s = true.
Proof.
  rewrite !forallb_forall. intros H x Hx. apply H. by apply in_rev in Hx.
Qed.

Lemma trim_nil_iff (s : jsstring) :
  trim s = [] <-> forallb isWhiteSpace s = true.
Proof.
  unfold trim, trimEnd. split.
  - intros H. apply (f_equal (@rev N)) in H. rewrite rev_involutive in H.
    simpl in H. apply trimStart_nil_iff, forallb_rev_true in H.
    destruct (trimStart s) as [| c r] eqn:Hs.
    + by apply trimStart_nil_iff.
    + apply trimStart_head in Hs. simpl in H. by rewrite Hs in H.
  - intros H. apply trimStart_nil_iff in H. by rewrite H.
Qed.

Lemma truthy_trim (s : jsstring) :
  truthy (trim s) = negb (forallb isWhiteSpace s).
Proof.
  destruct (forallb isWhiteSpace s) eqn:Hs.
  - apply trim_nil_iff in Hs. by rewrite Hs.
  - destruct (trim s) eqn:Ht; [| done].
    apply trim_nil_iff in Ht. congruence.
Qed.

(** *** Selecting a chat *)

Lemma chat_selectChat (c : Chat.t) (w : World) : chat (selectChat c w) = c.
Proof. unfold selectChat. by destruct (enabled c && negb (bool_decide (Chat._id c = Chat._id (chat w)))). Qed.

(** *** The directory data under the events of the view *)

Lemma run_cons (e : Event) (es : list Event) (w : World) :
  run (e :: es) w = run es (step w e).
Proof. reflexivity. Qed.

Lemma chatsData_invalidate_chats (w : World) :
  chatsData (invalidate_chats w) = chatsData w.
Proof. unfold chatsData, invalidate_chats. simpl. by destruct (chatsCache w). Qed.

Lemma chatsData_step (w : World) (e : Event) :
  isDirectoryFetch e = false -> chatsData (step w e) = chatsData w.
Proof.
  destruct e as [c | id r | r | m | v | | ok]; try done; intros _; simpl.
  - unfold selectChat.
    by destruct (enabled c && negb (bool_decide (Chat._id c = Chat._id (chat w)))).
  - unfold onNewMessageEvent. destruct (sessionUserId w) as [u |]; [| done].
    case_bool_decide; [done |]. apply chatsData_handleNewMessage.
  - unfold onChange. by destruct (inputDisabled w).
  - unfold submitForm, handleSendMessage. destruct (submitDisabled w); [done |].
    by destruct (negb (truthy (trim (message w)))).
  - destruct ok; [| done]. unfold sendResolved, onSuccess.
    change (chatsData (setPending false ?x)) with (chatsData x).
    by rewrite chatsData_invalidate_chats.
Qed.

Lemma preview_chatsData (w w' : World) (id : string) :
  chatsData w' = chatsData w -> preview id w' = preview id w.
Proof. intros H. unfold preview, allChats. by rewrite H. Qed.

Lemma chatsData_run_without_directory_fetch (es : list Event) (w : World) :
  forallb (fun e => negb (isDirectoryFetch e)) es = true ->
  chatsData (run es w) = chatsData w.
Proof.
  revert w. induction es as [| e es IH]; intros w Hes; [done |].
  simpl in Hes. apply andb_prop in Hes as [He Hes].
  apply negb_true_iff in He.
  rewrite run_cons, IH by done. by apply chatsData_step.
Qed.

(** ** The claims *)

(** C1 (as stated, refuted): a message already in the fetched thread and
    delivered once more by a push event is stored a second time; the thread
    then holds two messages with that id, not one. *)
Lemma C1_repeated_delivery_is_stored_twice :
  storedMessages "A" (run [FetchResolved "A" (mkResponse ∅ ∅ [m1]); NewMessage m1] wA)
  = [m1; m1]
  /\ copies "m1"
       (storedMessages "A"
          (run [FetchResolved "A" (mkResponse ∅ ∅ [m1]); NewMessage m1] wA)) = 2
  /\ copies "m1" (storedMessages "A" (run [NewMessage m1; NewMessage m1] wA)) <> 1.
Proof. vm_compute. repeat split. discriminate. Qed.

(** C1 (amended): a push delivery for the active chat prepends the message
    without looking at the ids stored, so [n] deliveries of [m] add [n]
    copies of [m]; a completed fetch replaces the thread by the fetched page;
    a send confirmation inserts nothing into the thread. *)
Theorem C1_push_prepends_every_delivery (w : World) (m : Message.t) (n : nat) :
  Message.chatId m = Chat._id (chat w) ->
  let id := Chat._id (chat w) in
  storedMessages id (Nat.iter n (handleNewMessage m) w)
  = repeat m n ++ storedMessages id w
  /\ copies (Message._id m) (storedMessages id (Nat.iter n (handleNewMessage m) w))
     = n + copies (Message._id m) (storedMessages id w)
  /\ (forall r : Thread, storedMessages id (fetchResolved id r w) = payload r)
  /\ storedMessages id (sendResolved true w) = storedMessages id w.
Proof.
  intros He id. destruct (storedMessages_iter_push n w m He) as [_ Hs].
  fold id in Hs. rewrite Hs, copies_app, copies_repeat.
  split; [done |]. split; [done |]. split.
  - intros r. unfold storedMessages. by rewrite cachedThread_fetchResolved.
  - unfold storedMessages, sendResolved, onSuccess.
    change (cachedThread id (setPending false ?x)) with (cachedThread id x).
    rewrite cachedThread_invalidate_chats, cachedThread_invalidate_messages.
    done.
Qed.

Lemma C1_push_prepends_every_delivery_witness :
  storedMessages "A" (Nat.iter 3 (handleNewMessage m1) wA_loaded)
  = [m1; m1; m1; m1]
  /\ copies "m1" (storedMessages "A" (Nat.iter 3 (handleNewMessage m1) wA_loaded)) = 4.
Proof.
  destruct (C1_push_prepends_every_delivery wA_loaded m1 3 eq_refl) as (Hs & Hc & _).
  split; [exact Hs | exact Hc].
Defined.

(** C2 (as stated, refuted): with [m1] older than [m2] and an empty thread,
    delivery in the order (m1, m2) renders m1 above m2, delivery in the
    order (m2, m1) renders m2 above m1. *)
Lemma C2_rendered_order_follows_arrival :
  earlier m1 m2 = true
  /\ renderThread (run [NewMessage m1; NewMessage m2] wA) = Rows [m1; m2]
  /\ renderThread (run [NewMessage m2; NewMessage m1] wA) = Rows [m2; m1]
  /\ renderThread (run [NewMessage m2; NewMessage m1] wA)
     <> renderThread (run [NewMessage m1; NewMessage m2] wA).
Proof. vm_compute. repeat split. discriminate. Qed.

(** C2 (amended): the two delivery orders store the same messages (the
    stored sequences are permutations of each other), and the rendered order
    is the arrival order: the message delivered last is rendered last,
    whatever the [createdAt] values are. *)
Theorem C2_push_order_same_set_arrival_order (w : World) (a b : Message.t) :
  Message.chatId a = Chat._id (chat w) ->
  Message.chatId b = Chat._id (chat w) ->
  let id := Chat._id (chat w) in
  let ab := handleNewMessage b (handleNewMessage a w) in
  let ba := handleNewMessage a (handleNewMessage b w) in
  Permutation (storedMessages id ab) (storedMessages id ba)
  /\ renderThread ab = Rows (rev (storedMessages id w) ++ [a; b])
  /\ renderThread ba = Rows (rev (storedMessages id w) ++ [b; a]).
Proof.
  intros Ha Hb id ab ba. subst id ab ba.
  rewrite !storedMessages_push2, !renderThread_push2 by done.
  split; [apply perm_swap | done].
Qed.

Lemma C2_push_order_same_set_arrival_order_witness :
  Permutation
    (storedMessages "A" (handleNewMessage m2 (handleNewMessage m1 wA_loaded)))
    (storedMessages "A" (handleNewMessage m1 (handleNewMessage m2 wA_loaded)))
  /\ renderThread (handleNewMessage m2 (handleNewMessage m1 wA_loaded))
     = Rows [m1; m1; m2].
Proof.
  destruct (C2_push_order_same_set_arrival_order wA_loaded m1 m2 eq_refl eq_refl)
    as (Hp & Hr & _).
  split; [exact Hp | exact Hr].
Defined.

(** C3 (as stated, refuted): chat A is open and a push event carries a
    message of chat B.  Nothing changes: the preview of chat B still shows
    its old message and the directory query is not even invalidated. *)
Lemma C3_other_chat_preview_not_updated :
  Message.chatId mB_new <> Chat._id (chat wA)
  /\ preview "B" (run [NewMessage mB_new] wA) = Some mB_old
  /\ preview "B" (run [NewMessage mB_new] wA) <> Some mB_new
  /\ (isInvalidated <$> chatsCache (run [NewMessage mB_new] wA)) = Some false.
Proof. vm_compute. repeat split; discriminate. Qed.

(** C3 (amended): a push event whose message belongs to another chat than
    the active one leaves the active chat's stored thread unchanged, and
    everything else too: the handler returns at once, so the directory and
    every preview in it stay as they were and no refetch is asked for.  A
    preview changes only when a directory fetch completes: no sequence of
    other events of the view changes any preview. *)
Theorem C3_other_chat_event_changes_nothing (w : World) (m : Message.t) :
  Message.chatId m <> Chat._id (chat w) ->
  handleNewMessage m w = w
  /\ cachedThread (Chat._id (chat w)) (handleNewMessage m w)
     = cachedThread (Chat._id (chat w)) w
  /\ preview (Message.chatId m) (handleNewMessage m w) = preview (Message.chatId m) w
  /\ chatsCache (handleNewMessage m w) = chatsCache w
  /\ (forall (es : list Event) (id : string),
        forallb (fun e => negb (isDirectoryFetch e)) es = true ->
        preview id (run es w) = preview id w).
Proof.
  intros Hne. rewrite handleNewMessage_other by done.
  repeat split. intros es id Hes.
  by apply preview_chatsData, chatsData_run_without_directory_fetch.
Qed.

Lemma C3_other_chat_event_changes_nothing_witness :
  handleNewMessage mB_new wA_loaded = wA_loaded
  /\ cachedThread "A" (handleNewMessage mB_new wA_loaded) = cachedThread "A" wA_loaded.
Proof.
  assert (Hne : Message.chatId mB_new <> Chat._id (chat wA_loaded))
    by (vm_compute; discriminate).
  destruct (C3_other_chat_event_changes_nothing wA_loaded mB_new Hne) as (H1 & H2 & _).
  split; [exact H1 | exact H2].
Defined.

(** C4: a draft of blanks only (the empty draft too) sends nothing and
    changes nothing; any other draft is sent, trimmed, to the open chat. *)
Theorem C4_blank_draft_is_not_sent (w : World) :
  (forallb isWhiteSpace (message w) = true ->
   handleSendMessage w = w /\ submitForm w = w)
  /\ (forallb isWhiteSpace (message w) = false ->
      trim (message w) <> []
      /\ handleSendMessage w
         = mutate (mkSendVars (Chat._id (chat w)) (trim (message w))) w
      /\ outbox (handleSendMessage w)
         = outbox w ++ [mkSendVars (Chat._id (chat w)) (trim (message w))]).
Proof.
  unfold submitForm, submitDisabled, handleSendMessage.
  rewrite truthy_trim. split; intros Hs; rewrite Hs; simpl.
  - done.
  - split; [| done]. intros Ht. apply trim_nil_iff in Ht. congruence.
Qed.

Lemma C4_blank_draft_is_not_sent_witness :
  handleSendMessage (setMessage blankDraft wA) = setMessage blankDraft wA
  /\ handleSendMessage (setMessage [] wA) = setMessage [] wA
  /\ outbox (handleSendMessage (setMessage paddedDraft wA))
     = [mkSendVars "A" (lit "ciao a tutti")].
Proof.
  split; [| split].
  - apply (proj1 (C4_blank_draft_is_not_sent (setMessage blankDraft wA))).
    reflexivity.
  - apply (proj1 (C4_blank_draft_is_not_sent (setMessage [] wA))).
    reflexivity.
  - apply (proj2 (C4_blank_draft_is_not_sent (setMessage paddedDraft wA))).
    reflexivity.
Defined.

(** C5 (as stated, refuted): the directory shows [m1] as the last message of
    chat A; the later message [m2] of chat A arrives by push while chat A is
    open.  The preview still shows [m1]: the handler only invalidates the
    directory query. *)
Lemma C5_later_message_does_not_replace_preview :
  preview "A" wA = Some m1
  /\ Message.chatId m2 = "A"
  /\ earlier m1 m2 = true
  /\ preview "A" (run [NewMessage m2] wA) = Some m1
  /\ preview "A" (run [NewMessage m2] wA) <> Some m2.
Proof. vm_compute. repeat split. discriminate. Qed.

(** C5 (amended): the push handler never changes the [lastMessage] of any
    chat of the directory, whether the incoming message is earlier or later
    than the stored one; for a message of the active chat it invalidates the
    directory query, which starts its refetch, otherwise it leaves the query
    alone.  No sequence of events of the view other than the completion of a
    directory fetch changes a preview, and when such a fetch completes the
    fetched snapshot replaces the stored one as it is, with no comparison of
    timestamps. *)
Theorem C5_preview_only_changes_by_directory_fetch
    (w : World) (m : Message.t) (id : string) :
  preview id (handleNewMessage m w) = preview id w
  /\ chatsData (handleNewMessage m w) = chatsData w
  /\ chatsCache (handleNewMessage m w)
     = (if bool_decide (Message.chatId m = Chat._id (chat w))
        then (fun q => mkQuery (qdata q) true true) <$> chatsCache w
        else chatsCache w)
  /\ (forall es : list Event,
        forallb (fun e => negb (isDirectoryFetch e)) es = true ->
        chatsData (run es w) = chatsData w
        /\ preview id (run es w) = preview id w)
  /\ (forall r : Response Directory,
        chatsData (chatsResolved r w) = Some (payload r)
        /\ preview id (chatsResolved r w)
           = find (fun c => bool_decide (Chat._id c = id))
                  (activeChats (payload r) ++ nonActiveChats (payload r))
             ≫= Chat.lastMessage).
Proof.
  split; [| split; [| split; [| split]]].
  - apply preview_chatsData, chatsData_handleNewMessage.
  - apply chatsData_handleNewMessage.
  - unfold handleNewMessage. by case_bool_decide.
  - intros es Hes.
    pose proof (chatsData_run_without_directory_fetch es w Hes) as Hd.
    split; [done | by apply preview_chatsData].
  - done.
Qed.

Lemma C5_preview_only_changes_by_directory_fetch_witness :
  preview "A"
    (run [NewMessage m2; SelectChat chatB;
          FetchResolved "B" (mkResponse ∅ ∅ [mB_new; mB_old]);
          NewMessage mB_new; Change paddedDraft; Submit; SendResolved true] wA)
  = Some m1.
Proof.
  apply (proj1 (proj2 (proj2 (proj2
           (C5_preview_only_changes_by_directory_fetch wA m2 "A"))))
           [NewMessage m2; SelectChat chatB;
            FetchResolved "B" (mkResponse ∅ ∅ [mB_new; mB_old]);
            NewMessage mB_new; Change paddedDraft; Submit; SendResolved true]).
  reflexivity.
Defined.

(** C6: when the send succeeds the draft is cleared; when it fails no cached
    query changes, one error toast is raised and the draft stays as it was,
    also when followed from the submission on. *)
Theorem C6_send_outcome (w : World) :
  message (sendResolved true w) = []
  /\ message (sendResolved false w) = message w
  /\ messagesCache (sendResolved false w) = messagesCache w
  /\ chatsCache (sendResolved false w) = chatsCache w
  /\ toasts (sendResolved false w) = toasts w ++ ["Errore nell'invio del messaggio"]
  /\ message (run [Submit; SendResolved true] w) = []
  /\ message (run [Submit; SendResolved false] w) = message w
  /\ messagesCache (run [Submit; SendResolved false] w) = messagesCache w
  /\ chatsCache (run [Submit; SendResolved false] w) = chatsCache w
  /\ toasts (run [Submit; SendResolved false] w)
     = toasts w ++ ["Errore nell'invio del messaggio"].
Proof.
  unfold run. simpl. unfold submitForm, handleSendMessage.
  destruct (submitDisabled w); [done |].
  by destruct (negb (truthy (trim (message w)))).
Qed.

(** C7: the rows shown are the stored newest-first sequence reversed, and
    the reversal works on a copy: the stored array holds the same elements in
    the same order afterwards, as does every other array alive. *)
Theorem C7_render_reverses_a_copy
    (w : World) (h : list (list Message.t)) (a : nat) (ms : list Message.t) :
  isLoading w = false ->
  messages w = Some ms ->
  ms <> [] ->
  h !! a = Some ms ->
  renderThread w = Rows (rev ms)
  /\ exists (h' : list (list Message.t)) (r : nat),
       JSArray.slice_reverse a h = Some (h', r)
       /\ h' !! r = Some (rev ms)
       /\ h' !! a = Some ms
       /\ forall b : nat, b < length h -> h' !! b = h !! b.
Proof.
  intros Hl Hm Hne Ha. split.
  - unfold renderThread. rewrite Hl, Hm. by destruct ms.
  - exists (h ++ [rev ms]), (length h).
    assert (Hlt : a < length h) by (by eapply lookup_lt_Some).
    assert (Hmid : (h ++ [ms]) !! length h = Some ms)
      by (by apply list_lookup_middle).
    split; [| split; [| split]].
    + unfold JSArray.slice_reverse, JSArray.slice, JSArray.reverse.
      rewrite Ha. simpl. rewrite Hmid. simpl.
      rewrite insert_app_r_alt by lia. by rewrite Nat.sub_diag.
    + by apply list_lookup_middle.
    + by rewrite lookup_app_l.
    + intros b Hb. by rewrite lookup_app_l.
Qed.

Lemma C7_render_reverses_a_copy_witness :
  renderThread (run [NewMessage m1; NewMessage m2] wA) = Rows [m1; m2]
  /\ exists (h' : list (list Message.t)) (r : nat),
       JSArray.slice_reverse 0 heap0 = Some (h', r)
       /\ h' !! r = Some [m1; m2]
       /\ h' !! 0 = Some [m2; m1]
       /\ forall b : nat, b < 1 -> h' !! b = heap0 !! b.
Proof.
  apply (C7_render_reverses_a_copy
           (run [NewMessage m1; NewMessage m2] wA) heap0 0 [m2; m1]).
  - reflexivity.
  - reflexivity.
  - discriminate.
  - reflexivity.
Defined.

(** C8: chat A is selected, then chat B before A's fetch has resolved.  In
    whichever order the two fetches resolve, the thread stored and shown for
    B is the response of B's fetch: a response for A is written under A's
    key and never alters what is stored for B. *)
Theorem C8_late_fetch_stays_under_its_own_key
    (w : World) (A B : Chat.t) (rA rB : Thread) :
  Chat._id A <> Chat._id B ->
  let late := run [SelectChat A; SelectChat B;
                   FetchResolved (Chat._id B) rB; FetchResolved (Chat._id A) rA] w in
  let early := run [SelectChat A; SelectChat B;
                    FetchResolved (Chat._id A) rA; FetchResolved (Chat._id B) rB] w in
  (forall v : World,
     cachedThread (Chat._id B) (fetchResolved (Chat._id A) rA v)
     = cachedThread (Chat._id B) v)
  /\ chat late = B
  /\ cachedThread (Chat._id B) late = Some rB
  /\ messages late = Some (payload rB)
  /\ cachedThread (Chat._id B) early = Some rB
  /\ messages early = Some (payload rB).
Proof.
  intros Hne late early.
  assert (Hc1 : chat late = B) by apply chat_selectChat.
  assert (Hc2 : chat early = B) by apply chat_selectChat.
  assert (Hl : cachedThread (Chat._id B) late = Some rB).
  { subst late. unfold run. simpl.
    rewrite cachedThread_fetchResolved_ne by done.
    apply cachedThread_fetchResolved. }
  assert (He : cachedThread (Chat._id B) early = Some rB).
  { subst early. unfold run. simpl. apply cachedThread_fetchResolved. }
  split; [| split; [| split; [| split; [| split]]]]; try done.
  - intros v. by apply cachedThread_fetchResolved_ne.
  - unfold messages. by rewrite Hc1, Hl.
  - unfold messages. by rewrite Hc2, He.
Qed.

Lemma C8_late_fetch_stays_under_its_own_key_witness :
  cachedThread "B"
    (run [SelectChat chatA; SelectChat chatB;
          FetchResolved "B" (mkResponse ∅ ∅ [mB_new; mB_old]);
          FetchResolved "A" (mkResponse ∅ ∅ [m2; m1])] wA)
  = Some (mkResponse ∅ ∅ [mB_new; mB_old])
  /\ messages
       (run [SelectChat chatA; SelectChat chatB;
             FetchResolved "B" (mkResponse ∅ ∅ [mB_new; mB_old]);
             FetchResolved "A" (mkResponse ∅ ∅ [m2; m1])] wA)
     = Some [mB_new; mB_old].
Proof.
  assert (Hne : Chat._id chatA <> Chat._id chatB) by (vm_compute; discriminate).
  destruct (C8_late_fetch_stays_under_its_own_key wA chatA chatB
              (mkResponse ∅ ∅ [m2; m1]) (mkResponse ∅ ∅ [mB_new; mB_old]) Hne)
    as (_ & _ & Hl & Hm & _).
  split; [exact Hl | exact Hm].
Defined.

(** C9: while the send is pending the text input and the submit button are
    both disabled, so the form takes no edit and no second submission. *)
Theorem C9_pending_disables_compose (w : World) :
  isPending w = true ->
  inputDisabled w = true
  /\ submitDisabled w = true
  /\ submitForm w = w
  /\ forall value : jsstring, onChange value w = w.
Proof.
  intros Hp. unfold submitForm, onChange, submitDisabled, inputDisabled.
  rewrite Hp, orb_true_r. done.
Qed.

Lemma C9_pending_disables_compose_witness :
  isPending wA_sending = true
  /\ inputDisabled wA_sending = true
  /\ submitDisabled wA_sending = true
  /\ run [Submit] wA_sending = wA_sending.
Proof.
  destruct (C9_pending_disables_compose wA_sending eq_refl) as (Hi & Hs & Hf & _).
  split; [reflexivity |]. split; [exact Hi |]. split; [exact Hs | exact Hf].
Defined.

(** C10: a push event for the open chat that finds nothing cached for its
    thread seeds the thread with that one message; a fetch of the thread
    that completes afterwards replaces the seed by its response. *)
Theorem C10_push_seeds_absent_thread (w : World) (m : Message.t) :
  Message.chatId m = Chat._id (chat w) ->
  cachedThread (Chat._id (chat w)) w = None ->
  let id := Chat._id (chat w) in
  cachedThread id (handleNewMessage m w) = Some (mkResponse ∅ ∅ [m])
  /\ storedMessages id (handleNewMessage m w) = [m]
  /\ renderThread (handleNewMessage m w) = Rows [m]
  /\ forall r : Thread,
       cachedThread id (fetchResolved id r (handleNewMessage m w)) = Some r.
Proof.
  intros He Hn id. subst id.
  rewrite renderThread_handleNewMessage by done.
  unfold storedMessages. rewrite cachedThread_handleNewMessage by done.
  rewrite Hn. simpl. repeat split.
  intros r. apply cachedThread_fetchResolved.
Qed.

Lemma C10_push_seeds_absent_thread_witness :
  cachedThread "A" (handleNewMessage m1 wA) = Some (mkResponse ∅ ∅ [m1])
  /\ cachedThread "A"
       (fetchResolved "A" (mkResponse ∅ ∅ [m2; m1]) (handleNewMessage m1 wA))
     = Some (mkResponse ∅ ∅ [m2; m1]).
Proof.
  destruct (C10_push_seeds_absent_thread wA m1 eq_refl eq_refl) as (Hs & _ & _ & Hf).
  split; [exact Hs | apply Hf].
Defined.

(** ** Further properties of the message view *)

(** *** More on trimming *)

Lemma trimStart_idem (s : jsstring) : trimStart (trimStart s) = trimStart s.
Proof.
  induction s as [| c r IH]; simpl; [done |].
  destruct (isWhiteSpace c) eqn:Hc; [exact IH |].
  simpl. by rewrite Hc.
Qed.

Lemma trimStart_snoc (l : jsstring) (c : N) :
  isWhiteSpace c = false -> trimStart (l ++ [c]) = trimStart l ++ [c].
Proof.
  intros Hc. induction l as [| d r IH]; simpl.
  - by rewrite Hc.
  - by destruct (isWhiteSpace d).
Qed.

Lemma trimEnd_cons (c : N) (r : jsstring) :
  isWhiteSpace c = false -> trimEnd (c :: r) = c :: trimEnd r.
Proof.
  intros Hc. unfold trimEnd. simpl.
  rewrite trimStart_snoc by done. by rewrite rev_app_distr.
Qed.

Lemma trimEnd_idem (s : jsstring) : trimEnd (trimEnd s) = trimEnd s.
Proof. unfold trimEnd. by rewrite rev_involutive, trimStart_idem. Qed.

Lemma trim_idem (s : jsstring) : trim (trim s) = trim s.
Proof.
  unfold trim. destruct (trimStart s) as [| c r] eqn:Hs; [done |].
  pose proof (trimStart_head _ _ _ Hs) as Hc.
  rewrite trimEnd_cons by done. simpl. rewrite Hc.
  rewrite <- trimEnd_cons by done. apply trimEnd_idem.
Qed.

(** *** What one event does to the requests sent *)

Lemma step_outbox (w : World) (e : Event) :
  (outbox (step w e) = outbox w
   /\ (isPending w = true -> isResolve e = false -> isPending (step w e) = true))
  \/ (isPending w = false
      /\ trim (message w) <> []
      /\ outbox (step w e)
         = outbox w ++ [mkSendVars (Chat._id (chat w)) (trim (message w))]
      /\ isPending (step w e) = true).
Proof.
  destruct e as [c | id r | r | m | v | | ok]; simpl.
  - left. unfold selectChat.
    by destruct (enabled c && negb (bool_decide (Chat._id c = Chat._id (chat w)))).
  - by left.
  - by left.
  - left. unfold onNewMessageEvent, handleNewMessage.
    destruct (sessionUserId w) as [u |]; [| done].
    case_bool_decide; [done |]. by case_bool_decide.
  - left. unfold onChange, inputDisabled.
    destruct (isPending w) eqn:Hp; (split; [done | by intros]).
  - unfold submitForm, submitDisabled, handleSendMessage.
    rewrite truthy_trim.
    destruct (forallb isWhiteSpace (message w)) eqn:Hb; simpl; [by left |].
    destruct (isPending w) eqn:Hp; [by left |].
    right. repeat split. intros Ht. apply trim_nil_iff in Ht. congruence.
  - left. split; [| done]. by destruct ok.
Qed.

Lemma run_pending_sends_nothing (es : list Event) (w : World) :
  isPending w = true ->
  forallb (fun e => negb (isResolve e)) es = true ->
  outbox (run es w) = outbox w /\ isPending (run es w) = true.
Proof.
  revert w. induction es as [| e es IH]; intros w Hp Hes; [done |].
  simpl in Hes. apply andb_prop in Hes as [He Hes].
  apply negb_true_iff in He. rewrite run_cons.
  destruct (step_outbox w e) as [[Ho Hk] | (Hf & _)]; [| congruence].
  destruct (IH (step w e) (Hk Hp He) Hes) as [Ho' Hp'].
  split; [congruence | done].
Qed.

(** X1: whatever happens, every request the view sends carries a content
    that is not empty and has no blank at either end; requests already sent
    are never dropped or reordered. *)
Theorem sent_contents_are_trimmed (es : list Event) (w : World) :
  exists new : list SendVars,
    outbox (run es w) = outbox w ++ new /\ Forall wellFormedContent new.
Proof.
  revert w. induction es as [| e es IH]; intros w.
  - exists []. split; [by rewrite app_nil_r | constructor].
  - rewrite run_cons. destruct (IH (step w e)) as (new & Hn & Hf).
    destruct (step_outbox w e) as [[Ho _] | (_ & Ht & Ho & _)].
    + exists new. by rewrite Hn, Ho.
    + exists (mkSendVars (Chat._id (chat w)) (trim (message w)) :: new).
      split.
      * rewrite Hn, Ho. by rewrite <- app_assoc.
      * constructor; [| done]. split; [done | apply trim_idem].
Qed.

(** X2: as long as no send has settled, the view sends at most one request,
    however often the form is submitted and whatever else happens. *)
Theorem at_most_one_send_until_settled (es : list Event) (w : World) :
  forallb (fun e => negb (isResolve e)) es = true ->
  length (outbox (run es w)) <= S (length (outbox w)).
Proof.
  revert w. induction es as [| e es IH]; intros w Hes; [simpl; lia |].
  simpl in Hes. apply andb_prop in Hes as [He Hes]. rewrite run_cons.
  destruct (step_outbox w e) as [[Ho _] | (_ & _ & Ho & Hp)].
  - specialize (IH (step w e) Hes). by rewrite Ho in IH.
  - destruct (run_pending_sends_nothing es (step w e) Hp Hes) as [Hr _].
    rewrite Hr, Ho, length_app. simpl. lia.
Qed.

Lemma at_most_one_send_until_settled_witness :
  length (outbox (run [Change paddedDraft; Submit; Submit; NewMessage m1;
                       Change blankDraft; Submit] wA)) <= 1.
Proof.
  apply (at_most_one_send_until_settled
           [Change paddedDraft; Submit; Submit; NewMessage m1;
            Change blankDraft; Submit] wA).
  reflexivity.
Defined.

Lemma submitForm_sends (w : World) :
  isPending w = false ->
  trim (message w) <> [] ->
  submitForm w = mutate (mkSendVars (Chat._id (chat w)) (trim (message w))) w.
Proof.
  intros Hp Ht. unfold submitForm, submitDisabled, handleSendMessage.
  destruct (trim (message w)) eqn:Hm; [done |]. by rewrite Hp.
Qed.

Lemma submitForm_blank (w : World) : trim (message w) = [] -> submitForm w = w.
Proof.
  intros Ht. unfold submitForm, submitDisabled, handleSendMessage.
  rewrite Ht. done.
Qed.

(** X3: after a failed send, submitting again sends the same content once
    more; after a successful send the draft is gone and submitting again
    sends nothing. *)
Theorem retry_after_failure_resends (w : World) :
  isPending w = false ->
  trim (message w) <> [] ->
  let v := mkSendVars (Chat._id (chat w)) (trim (message w)) in
  outbox (run [Submit; SendResolved false; Submit] w) = outbox w ++ [v; v]
  /\ outbox (run [Submit; SendResolved true; Submit] w) = outbox w ++ [v]
  /\ submitDisabled (run [Submit; SendResolved true] w) = true
  /\ submitDisabled (run [Submit; SendResolved false] w) = false.
Proof.
  intros Hp Ht v. unfold run. cbn [fold_left step].
  rewrite (submitForm_sends w Hp Ht). fold v.
  rewrite (submitForm_sends (sendResolved false (mutate v w))) by done.
  rewrite (submitForm_blank (sendResolved true (mutate v w))) by done.
  split; [| split; [| split]].
  - simpl. by rewrite <- app_assoc.
  - done.
  - done.
  - unfold submitDisabled. simpl. by destruct (trim (message w)).
Qed.

Lemma retry_after_failure_resends_witness :
  outbox (run [Submit; SendResolved false; Submit] (setMessage paddedDraft wA))
  = [mkSendVars "A" (lit "ciao a tutti"); mkSendVars "A" (lit "ciao a tutti")]
  /\ outbox (run [Submit; SendResolved true; Submit] (setMessage paddedDraft wA))
     = [mkSendVars "A" (lit "ciao a tutti")].
Proof.
  assert (Ht : trim (message (setMessage paddedDraft wA)) <> [])
    by (vm_compute; discriminate).
  destruct (retry_after_failure_resends (setMessage paddedDraft wA) eq_refl Ht)
    as (H1 & H2 & _).
  split; [exact H1 | exact H2].
Defined.

(** *** Bursts of push events *)

Lemma onNewMessageEvent_signedIn (m : Message.t) (w : World) :
  signedIn (sessionUserId w) = true -> onNewMessageEvent m w = handleNewMessage m w.
Proof.
  unfold signedIn, onNewMessageEvent.
  destruct (sessionUserId w) as [u |]; [| done].
  by case_bool_decide.
Qed.

Lemma sessionUserId_handleNewMessage (m : Message.t) (w : World) :
  sessionUserId (handleNewMessage m w) = sessionUserId w.
Proof. unfold handleNewMessage. by case_bool_decide. Qed.

Lemma cachedThread_handleNewMessage_ne (m : Message.t) (w : World) (id : string) :
  id <> Chat._id (chat w) ->
  cachedThread id (handleNewMessage m w) = cachedThread id w.
Proof.
  intros Hne. unfold handleNewMessage. case_bool_decide; [| done].
  rewrite cachedThread_invalidate_chats.
  by apply cachedThread_setQueryData_ne.
Qed.

Lemma push_burst (ms : list Message.t) (w : World) :
  signedIn (sessionUserId w) = true ->
  chat (run (map NewMessage ms) w) = chat w
  /\ storedMessages (Chat._id (chat w)) (run (map NewMessage ms) w)
     = rev (filter (fun m => Message.chatId m = Chat._id (chat w)) ms)
       ++ storedMessages (Chat._id (chat w)) w
  /\ (forall id : string, id <> Chat._id (chat w) ->
        cachedThread id (run (map NewMessage ms) w) = cachedThread id w)
  /\ chatsData (run (map NewMessage ms) w) = chatsData w.
Proof.
  revert w. induction ms as [| m ms IH]; intros w Hs; [done |].
  simpl map. rewrite run_cons. simpl step.
  rewrite onNewMessageEvent_signedIn by done.
  pose proof (chat_handleNewMessage w m) as Hc.
  assert (Hs' : signedIn (sessionUserId (handleNewMessage m w)) = true)
    by (by rewrite sessionUserId_handleNewMessage).
  destruct (IH (handleNewMessage m w) Hs') as (IHc & IHs & IHo & IHd).
  rewrite Hc in IHc, IHs, IHo.
  split; [done |]. split; [| split].
  - rewrite IHs. destruct (decide (Message.chatId m = Chat._id (chat w))) as [He | Hne].
    + rewrite filter_cons_True by done.
      rewrite storedMessages_handleNewMessage by done.
      simpl. by rewrite <- app_assoc.
    + rewrite filter_cons_False by done.
      by rewrite handleNewMessage_other.
  - intros id Hid. rewrite IHo by done.
    by apply cachedThread_handleNewMessage_ne.
  - by rewrite IHd, chatsData_handleNewMessage.
Qed.

(** X4: after any burst of push events in a signed-in session, the stored
    thread of the open chat is what it was, with the messages of that chat
    put in front, the last delivered first; messages of other chats are left
    out, the cached threads of all other chats and the directory data are
    untouched. *)
Theorem push_burst_only_feeds_open_thread (ms : list Message.t) (w : World) :
  signedIn (sessionUserId w) = true ->
  let id := Chat._id (chat w) in
  let w' := run (map NewMessage ms) w in
  storedMessages id w'
  = rev (filter (fun m => Message.chatId m = id) ms) ++ storedMessages id w
  /\ (forall id' : string, id' <> id -> cachedThread id' w' = cachedThread id' w)
  /\ chatsData w' = chatsData w.
Proof. intros Hs id w'. by destruct (push_burst ms w Hs) as (_ & ? & ? & ?). Qed.

Lemma push_burst_only_feeds_open_thread_witness :
  storedMessages "A" (run (map NewMessage [m1; mB_new; m2; m1]) wA_loaded)
  = [m1; m2; m1; m1].
Proof.
  apply (push_burst_only_feeds_open_thread [m1; mB_new; m2; m1] wA_loaded).
  reflexivity.
Defined.

(** Without a signed-in user no listener exists: push events change
    nothing. *)
Lemma onNewMessageEvent_signedOut (m : Message.t) (w : World) :
  signedIn (sessionUserId w) = false -> onNewMessageEvent m w = w.
Proof.
  unfold signedIn, onNewMessageEvent.
  destruct (sessionUserId w) as [u |]; [| done].
  by case_bool_decide.
Qed.

(** *** The pane after a chat is selected *)

(** X5: when a chat other than the one shown, with a non-empty id, is
    selected, the pane shows the skeleton only if nothing is cached for that
    chat; a cached thread is shown at once while the new fetch runs.  When
    the fetch completes the pane shows the fetched page, oldest first, or the
    placeholder if the page is empty. *)
Theorem thread_pane_after_select (c : Chat.t) (w : World) :
  enabled c = true ->
  Chat._id c <> Chat._id (chat w) ->
  renderThread (selectChat c w)
  = match cachedThread (Chat._id c) w with
    | None => Skeleton
    | Some r => match payload r with
                | [] => EmptyPlaceholder
                | m :: ms => Rows (rev (m :: ms))
                end
    end
  /\ forall r : Thread,
       renderThread (fetchResolved (Chat._id c) r (selectChat c w))
       = match payload r with
         | [] => EmptyPlaceholder
         | m :: ms => Rows (rev (m :: ms))
         end.
Proof.
  intros He Hne. split.
  - unfold renderThread, isLoading, messages.
    rewrite cachedThread_selectChat, chat_selectChat.
    unfold selectChat, cachedThread.
    rewrite He, (bool_decide_eq_false_2 _ Hne). simpl.
    rewrite lookup_partial_alter_eq. simpl.
    destruct (messagesCache w !! Chat._id c) as [q |]; simpl; [| done].
    destruct (qdata q) as [r |]; simpl; [| done].
    done.
  - intros r. unfold renderThread, isLoading, messages.
    change (chat (fetchResolved (Chat._id c) r (selectChat c w)))
      with (chat (selectChat c w)).
    rewrite chat_selectChat, cachedThread_fetchResolved.
    unfold fetchResolved. simpl. rewrite lookup_insert_eq. simpl.
    reflexivity.
Qed.

Lemma thread_pane_after_select_witness :
  renderThread (selectChat chatB wA_loaded) = Skeleton
  /\ renderThread (selectChat chatA (selectChat chatB wA_loaded)) = Rows [m1]
  /\ renderThread
       (fetchResolved "B" (mkResponse ∅ ∅ [mB_new; mB_old]) (selectChat chatB wA_loaded))
     = Rows [mB_old; mB_new].
Proof.
  assert (HBA : Chat._id chatB <> Chat._id (chat wA_loaded))
    by (vm_compute; discriminate).
  assert (HAB : Chat._id chatA <> Chat._id (chat (selectChat chatB wA_loaded)))
    by (vm_compute; discriminate).
  split; [| split].
  - apply (proj1 (thread_pane_after_select chatB wA_loaded eq_refl HBA)).
  - apply (proj1 (thread_pane_after_select chatA (selectChat chatB wA_loaded)
                    eq_refl HAB)).
  - apply (proj2 (thread_pane_after_select chatB wA_loaded eq_refl HBA)).
Defined.

(** *** Sending shows nothing by itself *)

Lemma compose_step_keeps_data (w : World) (e : Event) (id : string) :
  isCompose e = true ->
  cachedThread id (step w e) = cachedThread id w
  /\ chatsData (step w e) = chatsData w.
Proof.
  destruct e as [c | id' r | r | m | v | | ok]; try done; intros _; simpl.
  - unfold onChange. by destruct (inputDisabled w).
  - unfold submitForm, handleSendMessage. destruct (submitDisabled w); [done |].
    by destruct (negb (truthy (trim (message w)))).
  - destruct ok; [| done]. unfold sendResolved, onSuccess. split.
    + change (cachedThread id (setPending false ?x)) with (cachedThread id x).
      by rewrite cachedThread_invalidate_chats, cachedThread_invalidate_messages.
    + change (chatsData (setPending false ?x)) with (chatsData x).
      by rewrite chatsData_invalidate_chats.
Qed.

(** X15: typing, submitting and the settling of sends, in any number and
    order, never change the data cached for any thread or for the directory:
    a sent message is not put into the thread by the view itself, it shows
    up only through a fetch or a push event. *)
Theorem sending_never_writes_cached_data (es : list Event) (w : World) :
  forallb isCompose es = true ->
  forall id : string,
    cachedThread id (run es w) = cachedThread id w
    /\ storedMessages id (run es w) = storedMessages id w
    /\ chatsData (run es w) = chatsData w.
Proof.
  revert w. induction es as [| e es IH]; intros w Hes id; [done |].
  simpl in Hes. apply andb_prop in Hes as [He Hes]. rewrite run_cons.
  destruct (IH (step w e) Hes id) as (Hc & Hs & Hd).
  destruct (compose_step_keeps_data w e id He) as [Hc' Hd'].
  unfold storedMessages in *. rewrite Hc, Hd, Hc', Hd'. done.
Qed.

Lemma sending_never_writes_cached_data_witness :
  storedMessages "A"
    (run [Change paddedDraft; Submit; SendResolved true; Change blankDraft; Submit]
         wA_loaded)
  = [m1].
Proof.
  apply (sending_never_writes_cached_data
           [Change paddedDraft; Submit; SendResolved true; Change blankDraft; Submit]
           wA_loaded eq_refl "A").
Defined.

(** *** The socket subscription *)

Lemma tidy_runCleanup (s : Subscription.t) :
  Subscription.tidy s ->
  Subscription.listeners (Subscription.runCleanup s) = []
  /\ Subscription.cleanup (Subscription.runCleanup s) = None.
Proof.
  unfold Subscription.tidy, Subscription.runCleanup.
  destruct (Subscription.cleanup s) as [k |] eqn:Hc.
  - intros (cid & u & _ & _ & Hl). rewrite Hl. simpl.
    by rewrite Nat.eqb_refl.
  - intros Hl. by rewrite Hc.
Qed.

Lemma tidy_step (s : Subscription.t) (e : Subscription.Event) :
  Subscription.tidy s -> Subscription.tidy (Subscription.step s e).
Proof.
  intros Ht. destruct (tidy_runCleanup s Ht) as [Hl Hc].
  destruct e as [cid user connected |]; simpl.
  - case_bool_decide; [done |].
    unfold Subscription.runEffect, Subscription.tidy.
    destruct user as [u |]; [| by simpl].
    case_bool_decide; [by simpl |].
    destruct connected; simpl; [| done].
    exists cid, u. by rewrite Hl.
  - unfold Subscription.tidy. by simpl.
Qed.

Lemma tidy_run (es : list Subscription.Event) (s : Subscription.t) :
  Subscription.tidy s -> Subscription.tidy (Subscription.run es s).
Proof.
  revert s. induction es as [| e es IH]; intros s Ht; [done |].
  apply IH. by apply tidy_step.
Qed.

(** X6: however often the view re-renders with other chats or sessions, and
    whether or not a socket was available, it holds at most one
    ["newMessage"] listener, and that one was made for the chat and the user
    of the last effect run; after unmounting it holds none. *)
Theorem subscription_never_leaks (es : list Subscription.Event) :
  let s := Subscription.run es Subscription.init in
  length (Subscription.listeners s) <= 1
  /\ (forall (k : nat) (cid : string),
        In (k, cid) (Subscription.listeners s) ->
        exists u, Subscription.deps s = Some (cid, Some u) /\ u <> "")
  /\ Subscription.listeners
       (Subscription.run (es ++ [Subscription.Unmount]) Subscription.init) = [].
Proof.
  intros s.
  assert (Ht : Subscription.tidy s) by (by apply tidy_run).
  split; [| split].
  - unfold Subscription.tidy in Ht.
    destruct (Subscription.cleanup s); [| by rewrite Ht; simpl; lia].
    destruct Ht as (cid & u & _ & _ & Hl). rewrite Hl. simpl. lia.
  - intros k cid Hin. unfold Subscription.tidy in Ht.
    destruct (Subscription.cleanup s); [| by rewrite Ht in Hin].
    destruct Ht as (cid' & u & Hd & Hu & Hl). rewrite Hl in Hin.
    destruct Hin as [[= _ <-] | []]. by exists u.
  - unfold Subscription.run. rewrite fold_left_app. simpl.
    apply (tidy_runCleanup _ Ht).
Qed.

Lemma subscribed_step (s : Subscription.t) (e : Subscription.Event) :
  Subscription.subscribed s ->
  Subscription.allConnected [e] = true ->
  Subscription.subscribed (Subscription.step s e).
Proof.
  intros Hs Hc.
  assert (Hclean : Subscription.listeners (Subscription.runCleanup s) = []
                   /\ Subscription.cleanup (Subscription.runCleanup s) = None).
  { unfold Subscription.subscribed in Hs. unfold Subscription.runCleanup.
    destruct (Subscription.deps s) as [[cid user] |].
    - destruct (signedIn user).
      + destruct Hs as (k & Hl & Hk). rewrite Hk, Hl. simpl.
        by rewrite Nat.eqb_refl.
      + destruct Hs as [Hl Hk]. by rewrite Hk.
    - destruct Hs as [Hl Hk]. by rewrite Hk. }
  destruct Hclean as [Hl Hk].
  destruct e as [cid user connected |]; simpl.
  - case_bool_decide; [done |].
    simpl in Hc. rewrite andb_true_r in Hc. subst connected.
    unfold Subscription.runEffect, Subscription.subscribed.
    destruct user as [u |]; [| by simpl].
    case_bool_decide as Hu; simpl.
    + by rewrite bool_decide_eq_true_2.
    + rewrite bool_decide_eq_false_2 by done. simpl.
      exists (Subscription.runs (Subscription.runCleanup s)). by rewrite Hl.
  - unfold Subscription.subscribed. by simpl.
Qed.

Lemma subscribed_run (es : list Subscription.Event) (s : Subscription.t) :
  Subscription.subscribed s ->
  Subscription.allConnected es = true ->
  Subscription.subscribed (Subscription.run es s).
Proof.
  revert s. induction es as [| e es IH]; intros s Hs Hc; [done |].
  simpl in Hc. apply andb_prop in Hc as [He Hc].
  apply IH; [| done]. apply subscribed_step; [done |].
  simpl. by rewrite He.
Qed.

Lemma deps_after_render (s : Subscription.t) (cid : string)
    (user : option string) (connected : bool) :
  Subscription.deps (Subscription.step s (Subscription.Render cid user connected))
  = Some (cid, user).
Proof.
  simpl. case_bool_decide; [done |].
  unfold Subscription.runEffect. destruct user as [u |]; [| done].
  case_bool_decide; [done |]. by destruct connected.
Qed.

(** X7: when a socket was available at every effect run, a ["newMessage"]
    event emitted after any history of renders and unmounts reaches exactly
    the handler of the chat now shown, once, if the session has a user id,
    and no handler otherwise. *)
Theorem emit_reaches_handler_of_shown_chat
    (es : list Subscription.Event) (w : World) (m : Message.t) :
  Subscription.allConnected es = true ->
  Subscription.emit m
    (Subscription.run
       (es ++ [Subscription.Render (Chat._id (chat w)) (sessionUserId w) true])
       Subscription.init) w
  = onNewMessageEvent m w.
Proof.
  intros Hc. unfold Subscription.run. rewrite fold_left_app. cbn [fold_left].
  set (s := fold_left Subscription.step es Subscription.init).
  set (e := Subscription.Render (Chat._id (chat w)) (sessionUserId w) true).
  assert (Hs : Subscription.subscribed s).
  { apply (subscribed_run es Subscription.init); [| done].
    unfold Subscription.subscribed. by simpl. }
  assert (Hs' : Subscription.subscribed (Subscription.step s e))
    by (by apply subscribed_step).
  unfold Subscription.subscribed in Hs'.
  subst e. rewrite deps_after_render in Hs'. unfold Subscription.emit.
  destruct (signedIn (sessionUserId w)) eqn:Hu.
  - destruct Hs' as (k & Hl & _). rewrite Hl. simpl.
    by rewrite onNewMessageEvent_signedIn.
  - destruct Hs' as [Hl _]. rewrite Hl. simpl.
    by rewrite onNewMessageEvent_signedOut.
Qed.

Lemma emit_reaches_handler_of_shown_chat_witness :
  Subscription.emit m2
    (Subscription.run
       [Subscription.Render "B" (Some "me") true;
        Subscription.Render "B" (Some "me") true;
        Subscription.Unmount;
        Subscription.Render "B" None true;
        Subscription.Render "A" (Some "me") true]
       Subscription.init) wA_loaded
  = onNewMessageEvent m2 wA_loaded.
Proof.
  apply (emit_reaches_handler_of_shown_chat
           [Subscription.Render "B" (Some "me") true;
            Subscription.Render "B" (Some "me") true;
            Subscription.Unmount;
            Subscription.Render "B" None true] wA_loaded m2).
  reflexivity.
Defined.

(** ** Further properties of the chat list *)

(** *** Participants and avatars *)

(** X8: the participant shown as the other one is a participant of the chat
    and never the signed-in user; there is none exactly when every
    participant is the signed-in user; without a session it is the first
    participant. *)
Theorem otherParticipant_is_not_the_user
    (user : option string) (ps : list Profile.t) :
  (forall p : Profile.t,
     otherParticipant user ps = Some p -> In p ps /\ Some (Profile._id p) <> user)
  /\ (otherParticipant user ps = None
      <-> forall p : Profile.t, In p ps -> Some (Profile._id p) = user)
  /\ otherParticipant None ps = head ps.
Proof.
  unfold otherParticipant. split; [| split].
  - intros p Hf. apply find_some in Hf as [Hin Hp]. split; [done |].
    apply negb_true_iff in Hp. by apply bool_decide_eq_false in Hp.
  - split.
    + intros Hn p Hin. pose proof (find_none _ _ Hn p Hin) as Hp. simpl in Hp.
      apply negb_false_iff in Hp. by apply bool_decide_eq_true in Hp.
    + intros Hall. induction ps as [| p r IH]; [done |]. simpl.
      rewrite bool_decide_eq_true_2 by (apply Hall; by left). simpl.
      apply IH. intros q Hq. apply Hall. by right.
  - by destruct ps.
Qed.



(** *** The search box *)

(** X10: after the search text changes, the profile dropdown is open
    exactly when the new text is not blank, whether it was open before or
    not; nothing else but the search text changes. *)
Theorem search_change_sets_dropdown (value : jsstring) (s : ChatList.State) :
  ChatList.handleSearchChange value s
  = ChatList.mk value (negb (forallb isWhiteSpace value))
      (ChatList.createRequests s) (ChatList.newChats s)
      (ChatList.refetches s) (ChatList.consoleErrors s).
Proof.
  unfold ChatList.handleSearchChange. rewrite truthy_trim.
  destruct (forallb isWhiteSpace value); simpl; [done |].
  by destruct (ChatList.showProfiles s).
Qed.

(** *** Substring search *)

Lemma startsWith_spec (q s : jsstring) :
  startsWith q s = true <-> exists b, s = q ++ b.
Proof.
  revert s. induction q as [| a q IH]; intros s; simpl.
  - split; [by exists s | done].
  - destruct s as [| c s]; simpl.
    + split; [done | by intros [b Hb]].
    + rewrite andb_true_iff, N.eqb_eq, IH. split.
      * intros [-> [b ->]]. by exists b.
      * intros [b [= -> ->]]. split; [done | by exists b].
Qed.

Lemma includes_spec (s q : jsstring) :
  includes s q = true <-> exists a b, s = a ++ q ++ b.
Proof.
  induction s as [| c s IH]; simpl.
  - rewrite startsWith_spec. split.
    + intros [b Hb]. by exists [], b.
    + intros (a & b & Hab). destruct a; [by exists b |]. done.
  - rewrite orb_true_iff, startsWith_spec, IH. split.
    + intros [[b Hb] | (a & b & ->)]; [by exists [], b | by exists (c :: a), b].
    + intros (a & b & Hab). destruct a as [| d a]; [left; by exists b |].
      right. injection Hab as -> ->. by exists a, b.
Qed.

Lemma includes_nil (s : jsstring) : includes s [] = true.
Proof. apply includes_spec. by exists [], s. Qed.

Section SearchFacts.
Variable toLowerCase : jsstring -> jsstring.
Hypothesis toLowerCase_nil : toLowerCase [] = [].

Lemma filteredChats_nil (chats : list Chat.t) :
  ChatList.filteredChats toLowerCase [] chats = chats.
Proof.
  unfold ChatList.filteredChats. rewrite toLowerCase_nil.
  induction chats as [| c r IH]; [done |].
  simpl. rewrite includes_nil. by rewrite IH.
Qed.

(** X11: with an empty search text the list shows every chat of the
    directory, in the order of the directory, and the invitation to start a
    conversation appears exactly when the directory has no chat; with a
    search text that invitation never appears.  A chat whose lower-cased
    title contains the lower-cased search text is always listed. *)
Theorem search_filters_chat_list (query : jsstring) (chats : list Chat.t) :
  ChatList.filteredChats toLowerCase [] chats = chats
  /\ ChatList.renderList toLowerCase false [] chats
     = match chats with
       | [] => ChatList.NoConversations
       | _ :: _ => ChatList.ChatRows chats
       end
  /\ (query = [] \/ ChatList.renderList toLowerCase false query chats
                   <> ChatList.NoConversations)
  /\ forall (c : Chat.t) (a b : jsstring),
       In c chats ->
       toLowerCase (Chat.title c) = a ++ toLowerCase query ++ b ->
       In c (ChatList.filteredChats toLowerCase query chats).
Proof.
  split; [apply filteredChats_nil |]. split; [| split].
  - unfold ChatList.renderList. rewrite filteredChats_nil. by destruct chats.
  - destruct query as [| x q]; [by left | right].
    unfold ChatList.renderList. simpl. rewrite andb_false_r, andb_true_r.
    by destruct (length _ =? 0)%nat.
  - intros c a b Hin Ht. unfold ChatList.filteredChats.
    apply filter_In. split; [done |]. apply includes_spec. by exists a, b.
Qed.

(** X12: a blank search text filters no profile out, and the button for a
    new chat opens the dropdown with every loaded profile in it; before the
    profiles are loaded the dropdown has no row. *)
Theorem blank_query_lists_every_profile
    (query : jsstring) (ps : list ChatList.UserProfile) (s : ChatList.State) :
  forallb isWhiteSpace query = true ->
  ChatList.filteredProfiles toLowerCase query (Some ps) = ps
  /\ ChatList.filteredProfiles toLowerCase query None = []
  /\ ChatList.showProfiles (ChatList.handleNewChatClick s) = true
  /\ ChatList.filteredProfiles toLowerCase
       (ChatList.searchQuery (ChatList.handleNewChatClick s)) (Some ps) = ps.
Proof.
  intros Hb.
  assert (Hall : forall q, forallb isWhiteSpace q = true ->
                 ChatList.filteredProfiles toLowerCase q (Some ps) = ps).
  { intros q Hq. simpl. induction ps as [| p r IH]; [done |].
    simpl. unfold ChatList.profileMatches at 1.
    rewrite truthy_trim, Hq. simpl. by rewrite IH. }
  split; [by apply Hall |]. split; [done |]. split; [done |].
  by apply Hall.
Qed.

(** X13: when the request for a new chat fails, the search text, the
    dropdown, the chats handed to the parent and the refetch count stay as
    they were and one error is logged; when it succeeds the dropdown is
    closed, the search text is cleared so that the list shows every chat
    again, the parent gets the new chat and the directory is refetched
    once. *)
Theorem create_chat_outcome
    (userId : string) (c : Chat.t) (chats : list Chat.t) (s : ChatList.State) :
  let s1 := ChatList.handleProfileSelect userId s in
  let failed := ChatList.createChatSettled None s1 in
  let created := ChatList.createChatSettled (Some c) s1 in
  ChatList.createRequests s1 = ChatList.createRequests s ++ [userId]
  /\ ChatList.searchQuery failed = ChatList.searchQuery s
  /\ ChatList.showProfiles failed = ChatList.showProfiles s
  /\ ChatList.newChats failed = ChatList.newChats s
  /\ ChatList.refetches failed = ChatList.refetches s
  /\ ChatList.consoleErrors failed = S (ChatList.consoleErrors s)
  /\ ChatList.showProfiles created = false
  /\ ChatList.newChats created = ChatList.newChats s ++ [c]
  /\ ChatList.refetches created = S (ChatList.refetches s)
  /\ ChatList.consoleErrors created = ChatList.consoleErrors s
  /\ ChatList.filteredChats toLowerCase (ChatList.searchQuery created) chats = chats.
Proof.
  simpl. repeat split. apply filteredChats_nil.
Qed.

End SearchFacts.

Lemma search_filters_chat_list_witness :
  ChatList.filteredChats asciiLower [] [chatA; chatB] = [chatA; chatB]
  /\ ChatList.renderList asciiLower false [] [chatA; chatB]
     = ChatList.ChatRows [chatA; chatB].
Proof.
  destruct (search_filters_chat_list asciiLower eq_refl (lit "ALI") [chatA; chatB])
    as (H1 & H2 & _).
  split; [exact H1 | exact H2].
Defined.

Lemma blank_query_lists_every_profile_witness :
  ChatList.filteredProfiles asciiLower blankDraft
    (Some [ChatList.mkUserProfile "u1" (lit "alice") (lit "alice@example.org") None None])
  = [ChatList.mkUserProfile "u1" (lit "alice") (lit "alice@example.org") None None].
Proof.
  apply (blank_query_lists_every_profile asciiLower blankDraft
           [ChatList.mkUserProfile "u1" (lit "alice") (lit "alice@example.org") None None]
           (ChatList.mk [] false [] [] 0 0)).
  reflexivity.
Defined.

Lemma create_chat_outcome_witness :
  ChatList.filteredChats asciiLower
    (ChatList.searchQuery
       (ChatList.createChatSettled (Some chatB)
          (ChatList.handleProfileSelect "u2" (ChatList.mk (lit "bru") true [] [] 0 0))))
    [chatA; chatB]
  = [chatA; chatB].
Proof.
  apply (create_chat_outcome asciiLower eq_refl "u2" chatB [chatA; chatB]
           (ChatList.mk (lit "bru") true [] [] 0 0)).
Defined.

(** *** Time stamps of the previews *)

Lemma Qltb_hours (x k : Z) :
  ChatList.Qltb (inject_Z x / inject_Z (1000 * 60 * 60)) (inject_Z k)
  = (x <? k * 3600000)%Z.
Proof.
  unfold ChatList.Qltb. destruct (x <? k * 3600000)%Z eqn:Hx.
  - apply negb_true_iff. apply not_true_is_false. intros Hle.
    apply Qle_bool_iff in Hle. apply Z.ltb_lt in Hx.
    unfold Qle, Qdiv, Qmult, Qinv, inject_Z in Hle. simpl in Hle. lia.
  - apply negb_false_iff. apply Qle_bool_iff. apply Z.ltb_ge in Hx.
    unfold Qle, Qdiv, Qmult, Qinv, inject_Z. simpl. lia.
Qed.

(** X14: the preview time is shown as hour and minute when the message is
    less than 86 400 000 ms old (a time in the future included), as a
    weekday from exactly 24 hours up to less than 168 hours, and as day and
    month from exactly 168 hours on; an unreadable date takes the day and
    month branch. *)
Theorem formatTime_thresholds (now d : Z) :
  ChatList.formatTime now (Some d)
  = (if (now - d <? 86400000)%Z then ChatList.HourMinute
     else if (now - d <? 604800000)%Z then ChatList.Weekday
     else ChatList.DayMonth)
  /\ ChatList.formatTime now None = ChatList.DayMonth.
Proof.
  split; [| done]. unfold ChatList.formatTime, ChatList.diffInHours.
  change 24%Q with (inject_Z 24). change 168%Q with (inject_Z 168).
  by rewrite !Qltb_hours.
Qed.

Lemma otherParticipant_is_not_the_user_witness :
  In bruno [alice; bruno] /\ Some (Profile._id bruno) <> Some "u1".
Proof.
  apply (proj1 (otherParticipant_is_not_the_user (Some "u1") [alice; bruno]) bruno).
  reflexivity.
Defined.
